(** * backend/app.py: the exam service, embedded and verified

    The Flask application keeps two module-level globals, [users] (a dict)
    and [questions] (a list of dicts), and exposes four handlers:
    [register], [login], [get_questions] and [submit_exam].  Each handler is
    embedded as a function from the globals and the parsed request body to
    the response and the globals after the call.

    Scope of the embedding.
    - [submit_exam] works on parsed JSON values ([json] below); the request
      body is a JSON array, its elements are arbitrary JSON values.  JSON
      numbers with a fraction or an exponent (Python floats) are left out.
    - [register] and [login] read [username] and [password] with
      [data.get]; a field is [None] when the key is missing (or null) and a
      string otherwise.  Fields of another JSON type are outside this
      embedding: the code takes numbers and bools as credentials like
      strings and raises [TypeError] on a username that is an array or an
      object.
    - [@jwt_required()], [create_access_token] and [jsonify] belong to
      Flask and flask_jwt_extended.  The handler bodies are embedded as they
      run once the decorator has let the request through; a response is the
      Python value handed to [jsonify] together with the status code. *)

From stdpp Require Import gmap strings list fin_maps.

Local Open Scope string_scope.
Local Open Scope list_scope.
Local Open Scope Z_scope.
Local Open Scope nat_scope.

(** ** Python values and exceptions *)

(** What [request.get_json()] yields: [JObj] keeps the members in document
    order, [JInt] is a Python int, [JBool] a Python bool. *)
#[local] Set Warnings "-register-all".
Inductive json : Type :=
| JNull
| JBool (b : bool)
| JInt (n : Z)
| JStr (s : string)
| JArr (items : list json)
| JObj (members : list (string * json)).
#[local] Set Warnings "register-all".

Inductive exn : Type := KeyError | TypeError.

Inductive py_result (A : Type) : Type :=
| Return (a : A)
| Raise (e : exn).
Arguments Return {A} a.
Arguments Raise {A} e.

(** Sequencing: an exception ends the computation.  [x ← m; k] below is
    stdpp's notation for [mbind]. *)
#[global] Instance py_result_ret : MRet py_result := fun _ a => Return a.

#[global] Instance py_result_bind : MBind py_result := fun _ _ f m =>
  match m with
  | Return a => f a
  | Raise e => Raise e
  end.

(** [json.loads] keeps the last of several members with one name. *)
Fixpoint obj_lookup (k : string) (members : list (string * json)) : option json :=
  match members with
  | [] => None
  | (k', v) :: rest =>
      match obj_lookup k rest with
      | Some w => Some w
      | None => if String.eqb k' k then Some v else None
      end
  end.

(** [answer[k]] for a string [k]: a dict without the key raises [KeyError];
    a list, a str, a number, a bool or [None] raises [TypeError]. *)
Definition getitem (answer : json) (k : string) : py_result json :=
  match answer with
  | JObj members =>
      match obj_lookup k members with
      | Some v => Return v
      | None => Raise KeyError
      end
  | _ => Raise TypeError
  end.

(** Dict keys up to Python's [hash] and [==]: [True] and [1] are one key,
    [False] and [0] too. *)
Inductive pykey : Type := KNone | KInt (n : Z) | KStr (s : string).

#[global] Instance pykey_eq_dec : EqDecision pykey.
Proof. solve_decision. Defined.

(** [hash(v)]: lists and dicts are unhashable. *)
Definition py_hash (v : json) : py_result pykey :=
  match v with
  | JNull => Return KNone
  | JBool b => Return (KInt (Z.b2z b))
  | JInt n => Return (KInt n)
  | JStr s => Return (KStr s)
  | JArr _ | JObj _ => Raise TypeError
  end.

(** [v == s] for a str [s]: only an equal str is equal to a str. *)
Definition eq_str (v : json) (s : string) : bool :=
  match v with
  | JStr t => String.eqb t s
  | _ => false
  end.

(** A Python dict with hashable JSON keys and str values, in insertion
    order.  [d[k] = v] keeps the key object and the position of an entry
    already there and replaces its value; otherwise it appends.  The
    caller passes [c], the class of [k] it got from [py_hash]. *)
Definition pydict : Type := list (json * string).

Definition key_is (c : pykey) (k : json) : bool :=
  match py_hash k with
  | Return c' => bool_decide (c' = c)
  | Raise _ => false
  end.

Fixpoint dict_setitem (d : pydict) (k : json) (c : pykey) (v : string) : pydict :=
  match d with
  | [] => [(k, v)]
  | (k', v') :: rest =>
      if key_is c k' then (k', v) :: rest
      else (k', v') :: dict_setitem rest k c v
  end.

(** [d.get(k)] by the key's class. *)
Fixpoint dict_lookup (d : pydict) (c : pykey) : option string :=
  match d with
  | [] => None
  | (k', v') :: rest => if key_is c k' then Some v' else dict_lookup rest c
  end.

(** [d1 == d2] on dicts: the same keys bound to equal values, whatever the
    insertion order. *)
Definition dict_eq (d1 d2 : pydict) : Prop :=
  ∀ c, dict_lookup d1 c = dict_lookup d2 c.

(** ** The globals *)

Record Question : Type := mkQuestion {
  qid : Z;
  question : string;
  options : list string;
  correct_answer : string
}.

Record app_state : Type := mkState {
  g_users : gmap string string;
  g_questions : list Question
}.

Definition users : gmap string string := ∅.

Definition questions : list Question :=
  [ mkQuestion 1 "What is the capital of France?"
      ["Berlin"; "Madrid"; "Paris"; "Rome"] "Paris";
    mkQuestion 2 "Which planet is known as the Red Planet?"
      ["Earth"; "Mars"; "Jupiter"; "Saturn"] "Mars";
    mkQuestion 3 "What is the largest ocean on Earth?"
      ["Atlantic Ocean"; "Indian Ocean"; "Arctic Ocean"; "Pacific Ocean"]
      "Pacific Ocean";
    mkQuestion 4 "Who wrote 'To Kill a Mockingbird'?"
      ["Harper Lee"; "Mark Twain"; "Ernest Hemingway"; "F. Scott Fitzgerald"]
      "Harper Lee";
    mkQuestion 5 "What is the square root of 64?"
      ["6"; "7"; "8"; "9"] "8" ].

(** The globals when the process starts. *)
Definition startup : app_state := mkState users questions.

(** ** Responses *)

(** The argument of [jsonify] in [register] and [login]. *)
Inductive reply : Type :=
| Msg (msg : string)
| AccessToken (identity : string).

(** [(body, status)]; a handler that returns [jsonify(...)] alone answers
    200. *)
Definition response : Type := reply * Z.

(** ** register and login *)

Record credentials : Type := mkCredentials {
  username : option string;
  password : option string
}.

(** [not v] for [v] a str or [None]. *)
Definition py_not (v : option string) : bool :=
  match v with
  | None => true
  | Some s => String.eqb s ""
  end.

(** A field that [data.get] finds missing, or that is the empty str. *)
Definition empty_or_missing (v : option string) : Prop :=
  v = None ∨ v = Some "".

(** The last branch of the [match] is never reached: [py_not] has sent a
    missing field to the first answer. *)
Definition register (st : app_state) (data : credentials) : response * app_state :=
  if py_not (username data) || py_not (password data) then
    ((Msg "Username and password are required", 400%Z), st)
  else
    match username data, password data with
    | Some u, Some p =>
        if bool_decide (is_Some (g_users st !! u)) then
          ((Msg "User already exists", 409%Z), st)
        else
          ((Msg "User registered successfully", 201%Z),
           mkState (<[u := p]> (g_users st)) (g_questions st))
    | _, _ => ((Msg "Username and password are required", 400%Z), st)
    end.

Definition login (st : app_state) (data : credentials) : response * app_state :=
  if py_not (username data) || py_not (password data) then
    ((Msg "Username and password are required", 400%Z), st)
  else
    match username data, password data with
    | Some u, Some p =>
        if negb (bool_decide (is_Some (g_users st !! u)))
           || negb (bool_decide (g_users st !! u = Some p)) then
          ((Msg "Invalid username or password", 401%Z), st)
        else
          ((AccessToken u, 200%Z), st)
    | _, _ => ((Msg "Username and password are required", 400%Z), st)
    end.

(** ** get_questions *)

Definition question_data (qs : list Question) : list json :=
  map (fun q => JObj [("id", JInt (qid q));
                      ("question", JStr (question q));
                      ("options", JArr (map JStr (options q)))]) qs.

Definition get_questions (st : app_state) : json * app_state :=
  (JArr (question_data (g_questions st)), st).

(** [k] is the name of a member somewhere in [v]. *)
Fixpoint has_key (k : string) (v : json) : bool :=
  match v with
  | JArr items => existsb (has_key k) items
  | JObj members =>
      existsb (fun m => String.eqb (fst m) k || has_key k (snd m)) members
  | _ => false
  end.

(** ** submit_exam *)

Record scoring : Type := mkScoring {
  score : nat;
  total : nat;
  correct_answers : pydict
}.

(** [{q["id"]: q for q in questions}]: a later question replaces an earlier
    one with the same id. *)
Definition question_map (qs : list Question) : gmap Z Question :=
  foldl (fun m q => <[qid q := q]> m) ∅ qs.

(** [q_id in question_map] and [question_map[q_id]] once [q_id] is hashed:
    the keys of the bank are ints. *)
Definition find_question (qm : gmap Z Question) (c : pykey) : option Question :=
  match c with
  | KInt n => qm !! n
  | _ => None
  end.

(** One turn of [for answer in user_answers], on the locals
    [(score, correct_answers)]. *)
Definition loop_body (qm : gmap Z Question) (locals : nat * pydict) (answer : json)
  : py_result (nat * pydict) :=
  q_id ← getitem answer "id";
  user_option ← getitem answer "selected_option";
  c ← py_hash q_id;
  match find_question qm c with
  | Some q =>
      let correct_option := correct_answer q in
      let correct_answers := dict_setitem locals.2 q_id c correct_option in
      if eq_str user_option correct_option
      then Return (S locals.1, correct_answers)
      else Return (locals.1, correct_answers)
  | None => Return locals
  end.

Fixpoint for_answers (qm : gmap Z Question) (locals : nat * pydict)
  (user_answers : list json) : py_result (nat * pydict) :=
  match user_answers with
  | [] => Return locals
  | answer :: rest =>
      locals' ← loop_body qm locals answer;
      for_answers qm locals' rest
  end.

Definition submit_exam (st : app_state) (user_answers : list json)
  : py_result scoring * app_state :=
  let total := length (g_questions st) in
  let question_map := question_map (g_questions st) in
  (locals ← for_answers question_map (0, []) user_answers;
   Return (mkScoring locals.1 total locals.2),
   st).

(** Flask answers 200 for a returned [jsonify(...)] and 500 when the handler
    lets an exception escape. *)
Definition submit_status (r : py_result scoring) : Z :=
  match r with
  | Return _ => 200%Z
  | Raise _ => 500%Z
  end.

(** A submission as the handler expects it: *)
Definition submission (q_id : json) (selected_option : json) : json :=
  JObj [("id", q_id); ("selected_option", selected_option)].

(** ** Shapes of a submission entry *)

Definition hashable (v : json) : bool :=
  match v with
  | JArr _ | JObj _ => false
  | _ => true
  end.

(** The exception an entry makes [loop_body] raise, if any: read off the
    entry, not off the loop. *)
Definition entry_error (a : json) : option exn :=
  match a with
  | JObj members =>
      match obj_lookup "id" members, obj_lookup "selected_option" members with
      | None, _ => Some KeyError
      | Some _, None => Some KeyError
      | Some i, Some _ => if hashable i then None else Some TypeError
      end
  | _ => Some TypeError
  end.

(** A JSON object with both fields and a scalar id. *)
Definition well_formed (a : json) : Prop := entry_error a = None.

(** A JSON object that lacks [id] or [selected_option]. *)
Definition missing_field (a : json) : Prop :=
  ∃ members, a = JObj members ∧
    (obj_lookup "id" members = None ∨ obj_lookup "selected_option" members = None).

(** A JSON object that carries both [id] and [selected_option]. *)
Definition has_fields (a : json) : Prop :=
  ∃ members i o, a = JObj members ∧
    obj_lookup "id" members = Some i ∧ obj_lookup "selected_option" members = Some o.

(** The key class of an entry's id, when it has one. *)
Definition answer_key (a : json) : option pykey :=
  match getitem a "id" with
  | Return i => match py_hash i with Return c => Some c | Raise _ => None end
  | Raise _ => None
  end.

(** The entry names question [c] of the bank. *)
Definition hits (qm : gmap Z Question) (c : pykey) (a : json) : bool :=
  bool_decide (answer_key a = Some c) && bool_decide (is_Some (find_question qm c)).

(** The entry names a question of the bank and selects its correct answer. *)
Definition earns (qm : gmap Z Question) (a : json) : bool :=
  match answer_key a, getitem a "selected_option" with
  | Some c, Return o =>
      match find_question qm c with
      | Some q => eq_str o (correct_answer q)
      | None => false
      end
  | _, _ => false
  end.

(** Two outcomes that are equal as Python values: the same exception, or
    the same score and total and [==] dicts. *)
Definition same_outcome (r1 r2 : py_result scoring) : Prop :=
  match r1, r2 with
  | Return a, Return b =>
      score a = score b ∧ total a = total b
      ∧ dict_eq (correct_answers a) (correct_answers b)
  | Raise e1, Raise e2 => e1 = e2
  | _, _ => False
  end.

(** ** The routes *)

(** One request per route of the application ([@app.route] at each
    handler).  [handle] is the state of the globals after the handler has
    answered; [serve] handles the requests one after the other, in the
    order they arrive. *)
Inductive request : Type :=
| PostRegister (data : credentials)
| PostLogin (data : credentials)
| GetQuestions
| PostSubmit (user_answers : list json).

Definition handle (st : app_state) (r : request) : app_state :=
  match r with
  | PostRegister data => (register st data).2
  | PostLogin data => (login st data).2
  | GetQuestions => (get_questions st).2
  | PostSubmit user_answers => (submit_exam st user_answers).2
  end.

Definition serve (st : app_state) (requests : list request) : app_state :=
  foldl handle st requests.

(** ** Auxiliary notions for the statements *)

(** The key classes of a dict, in insertion order. *)
Definition dict_keys (d : pydict) : list (py_result pykey) :=
  map (fun kv => py_hash (fst kv)) d.

(** The answer sheet that selects the correct answer of every question. *)
Definition answer_sheet (qs : list Question) : list json :=
  map (fun q => submission (JInt (qid q)) (JStr (correct_answer q))) qs.



(** Two entries that [loop_body] treats alike: the same exception if any,
    the same key class and the same selected option. *)
Definition alike (a b : json) : Prop :=
  entry_error a = entry_error b
  ∧ answer_key a = answer_key b
  ∧ getitem a "selected_option" = getitem b "selected_option".

(** ** Lemmas on dicts and on the question map *)

Lemma hashable_py_hash v : hashable v = true ↔ ∃ c, py_hash v = Return c.
Proof.
  destruct v; simpl; split; intros H; try done; eauto;
    by destruct H as [c H].
Qed.

Lemma key_is_hash k c c' : py_hash k = Return c → key_is c' k = bool_decide (c = c').
Proof. unfold key_is. by intros ->. Qed.

Lemma key_is_true c k : key_is c k = true ↔ py_hash k = Return c.
Proof.
  unfold key_is. destruct (py_hash k) as [c'|e]; [|done].
  rewrite bool_decide_eq_true. split; congruence.
Qed.

Lemma dict_lookup_setitem d k c v c' :
  py_hash k = Return c →
  dict_lookup (dict_setitem d k c v) c' =
    if decide (c = c') then Some v else dict_lookup d c'.
Proof.
  intros Hk. induction d as [|[k' v'] d IH]; simpl.
  - rewrite (key_is_hash _ _ _ Hk). by case_bool_decide; case_decide.
  - destruct (key_is c k') eqn:Hc; simpl.
    + apply key_is_true in Hc. rewrite (key_is_hash _ _ _ Hc).
      case_bool_decide; case_decide; try done.
    + rewrite IH. destruct (key_is c' k') eqn:Hc'; [|done].
      case_decide; [|done]. congruence.
Qed.

Lemma question_map_snoc qs q :
  question_map (qs ++ [q]) = <[qid q := q]> (question_map qs).
Proof. unfold question_map. by rewrite foldl_app. Qed.

Lemma question_map_lookup_Some qs n q :
  question_map qs !! n = Some q → q ∈ qs ∧ qid q = n.
Proof.
  induction qs as [|q' qs IH] using rev_ind.
  - unfold question_map; simpl. by rewrite lookup_empty.
  - rewrite question_map_snoc, lookup_insert, elem_of_app, list_elem_of_singleton.
    case_decide as Hn.
    + intros [= ->]. by split; [right|].
    + intros [??]%IH. by split; [left|].
Qed.

Lemma question_map_lookup_None qs n :
  question_map qs !! n = None ↔ ∀ q, q ∈ qs → qid q ≠ n.
Proof.
  induction qs as [|q' qs IH] using rev_ind.
  - unfold question_map; simpl. split; [by intros _ q ?%elem_of_nil|by rewrite lookup_empty].
  - rewrite question_map_snoc, lookup_insert. case_decide as Hn.
    + split; [done|]. intros H. destruct (H q'); [|done].
      apply elem_of_app. right. by apply list_elem_of_singleton.
    + rewrite IH. split.
      * intros H q [?| ->%list_elem_of_singleton]%elem_of_app; auto.
      * intros H q ?. apply H, elem_of_app. by left.
Qed.

(** ** Lemmas on the loop *)

Section loop.
Context (qm : gmap Z Question).

(** What one turn does, by the shape of the entry. *)
Lemma loop_body_cases s d a :
  match entry_error a with
  | Some e => loop_body qm (s, d) a = Raise e
  | None =>
      ∃ i o c, getitem a "id" = Return i
        ∧ getitem a "selected_option" = Return o
        ∧ py_hash i = Return c
        ∧ loop_body qm (s, d) a =
            Return (match find_question qm c with
                    | Some q => (if eq_str o (correct_answer q) then S s else s,
                                 dict_setitem d i c (correct_answer q))
                    | None => (s, d)
                    end)
  end.
Proof.
  destruct a as [| | | | |members]; try done.
  unfold entry_error, loop_body, getitem.
  destruct (obj_lookup "id" members) as [i|]; [|done].
  destruct (obj_lookup "selected_option" members) as [o|]; [|done].
  destruct (hashable i) eqn:Hi.
  - apply hashable_py_hash in Hi as [c Hc]. exists i, o, c.
    repeat split; try done. simpl. rewrite Hc. simpl.
    destruct (find_question qm c) as [q|]; [|done].
    by destruct (eq_str o (correct_answer q)).
  - simpl. destruct i; try done.
Qed.

Lemma for_answers_app locals l1 l2 :
  for_answers qm locals (l1 ++ l2) =
    locals' ← for_answers qm locals l1; for_answers qm locals' l2.
Proof.
  revert locals. induction l1 as [|a l1 IH]; intros locals; [done|].
  simpl. destruct (loop_body qm locals a) as [locals'|e]; simpl; [apply IH|done].
Qed.

Lemma for_answers_returns locals l :
  Forall well_formed l → ∃ locals', for_answers qm locals l = Return locals'.
Proof.
  intros Hl. revert locals. induction Hl as [|a l Ha _ IH]; intros [s d]; [by eexists|].
  simpl. pose proof (loop_body_cases s d a) as Hb.
  rewrite Ha in Hb. destruct Hb as (i & o & c & _ & _ & _ & ->). apply IH.
Qed.

Lemma for_answers_raises locals l1 a l2 e :
  Forall well_formed l1 → entry_error a = Some e →
  for_answers qm locals (l1 ++ a :: l2) = Raise e.
Proof.
  intros Hl Ha. rewrite for_answers_app.
  destruct (for_answers_returns locals l1 Hl) as [[s d] ->]. simpl.
  pose proof (loop_body_cases s d a) as Hb. rewrite Ha in Hb. by rewrite Hb.
Qed.

(** Every list is all well formed, or has a first entry that is not. *)
Lemma first_malformed l :
  Forall well_formed l
  ∨ ∃ l1 a l2 e, l = l1 ++ a :: l2 ∧ Forall well_formed l1 ∧ entry_error a = Some e.
Proof.
  induction l as [|a l [IH|(l1 & b & l2 & e & -> & Hl1 & Hb)]].
  - by left.
  - destruct (entry_error a) as [e|] eqn:Ha.
    + right. exists [], a, l, e. by repeat split.
    + left. by constructor.
  - destruct (entry_error a) as [e'|] eqn:Ha.
    + right. exists [], a, (l1 ++ b :: l2), e'. by repeat split.
    + right. exists (a :: l1), b, l2, e. split_and!; try done.
      by constructor.
Qed.

Lemma answer_key_hash a i c :
  getitem a "id" = Return i → py_hash i = Return c → answer_key a = Some c.
Proof. unfold answer_key. by intros -> ->. Qed.

(** The score grows by one for each entry that [earns]. *)
Lemma for_answers_score s d l s' d' :
  for_answers qm (s, d) l = Return (s', d') →
  s' = s + length (filter (λ a, earns qm a = true) l).
Proof.
  revert s d. induction l as [|a l IH]; intros s d; simpl.
  - intros [= -> _]. lia.
  - pose proof (loop_body_cases s d a) as Hb.
    destruct (entry_error a) as [e|]; [by rewrite Hb|].
    destruct Hb as (i & o & c & Hi & Ho & Hc & ->). simpl.
    assert (earns qm a = match find_question qm c with
                         | Some q => eq_str o (correct_answer q)
                         | None => false
                         end) as He.
    { unfold earns. by rewrite (answer_key_hash _ _ _ Hi Hc), Ho. }
    rewrite filter_cons. destruct (find_question qm c) as [q|].
    + destruct (eq_str o (correct_answer q)); intros ->%IH;
        rewrite He; case_decide; try done; simpl; lia.
    + intros ->%IH. rewrite He. case_decide; [done|lia].
Qed.

(** [correct_answers] binds exactly the bank questions that an entry names,
    each to the bank's correct answer. *)
Lemma for_answers_dict s d l s' d' c :
  for_answers qm (s, d) l = Return (s', d') →
  dict_lookup d' c =
    if existsb (hits qm c) l then correct_answer <$> find_question qm c
    else dict_lookup d c.
Proof.
  revert s d. induction l as [|a l IH]; intros s d; simpl.
  - by intros [= _ ->].
  - pose proof (loop_body_cases s d a) as Hb.
    destruct (entry_error a) as [e|]; [by rewrite Hb|].
    destruct Hb as (i & o & ck & Hi & Ho & Hc & ->). simpl.
    unfold hits at 1. rewrite (answer_key_hash _ _ _ Hi Hc).
    destruct (find_question qm ck) as [q|] eqn:Hq.
    + intros H. assert (∃ s1, for_answers qm (s1, dict_setitem d i ck (correct_answer q)) l
                               = Return (s', d')) as [s1 H1].
      { destruct (eq_str o (correct_answer q)); eauto. }
      rewrite (IH _ _ H1), (dict_lookup_setitem _ _ _ _ c Hc).
      case_bool_decide as Hk; simplify_eq.
      * rewrite Hq. rewrite bool_decide_eq_true_2 by eauto. simpl.
        rewrite decide_True by done. by destruct (existsb _ l).
      * simpl. rewrite decide_False by congruence. done.
    + intros ->%IH. case_bool_decide as Hk; simplify_eq; simpl; [|done].
      rewrite Hq. rewrite bool_decide_eq_false_2 by (by intros [??]). done.
Qed.

Lemma loop_body_skip locals a i o c :
  getitem a "id" = Return i → getitem a "selected_option" = Return o →
  py_hash i = Return c → find_question qm c = None →
  loop_body qm locals a = Return locals.
Proof.
  unfold loop_body. intros -> -> Hc Hq. simpl. rewrite Hc. simpl. by rewrite Hq.
Qed.

Lemma loop_body_known s d a i o c q :
  getitem a "id" = Return i → getitem a "selected_option" = Return o →
  py_hash i = Return c → find_question qm c = Some q →
  loop_body qm (s, d) a =
    Return (s + (if eq_str o (correct_answer q) then 1 else 0),
            dict_setitem d i c (correct_answer q)).
Proof.
  unfold loop_body. intros -> -> Hc Hq. simpl. rewrite Hc. simpl. rewrite Hq.
  destruct (eq_str o (correct_answer q)); do 2 f_equal; lia.
Qed.

End loop.

Lemma submit_exam_for st l :
  submit_exam st l =
    (match for_answers (question_map (g_questions st)) (0, []) l with
     | Return locals => Return (mkScoring locals.1 (length (g_questions st)) locals.2)
     | Raise e => Raise e
     end, st).
Proof. done. Qed.

Lemma find_question_None qs c :
  Forall (λ q, c ≠ KInt (qid q)) qs → find_question (question_map qs) c = None.
Proof.
  intros Hqs. destruct c as [|n|s]; try done. simpl.
  apply question_map_lookup_None. intros q Hq <-.
  rewrite Forall_forall in Hqs. by apply (Hqs q).
Qed.

(** ** Scoring *)

(** C1. On every list of well-formed submissions [submit_exam] returns, and
    the total it returns is the number of questions of the bank, however
    many submissions there are; on the empty list it returns score 0, that
    total and an empty [correct_answers]; the shipped bank has 5 questions. *)
Theorem submit_exam_total st l :
  Forall well_formed l →
  (∃ s ca, submit_exam st l
           = (Return (mkScoring s (length (g_questions st)) ca), st))
  ∧ submit_exam st [] = (Return (mkScoring 0 (length (g_questions st)) []), st)
  ∧ submit_exam startup [] = (Return (mkScoring 0 5 []), startup).
Proof.
  intros Hl. split; [|done].
  destruct (for_answers_returns (question_map (g_questions st)) (0, []) l Hl)
    as [[s d] Hfor].
  exists s, d. by rewrite submit_exam_for, Hfor.
Qed.

Lemma submit_exam_total_witness :
  Forall well_formed [submission (JInt 3) (JStr "Pacific Ocean")]
  ∧ (∃ s ca, submit_exam startup [submission (JInt 3) (JStr "Pacific Ocean")]
             = (Return (mkScoring s 5 ca), startup)).
Proof.
  split; [by repeat constructor|].
  apply (submit_exam_total startup [submission (JInt 3) (JStr "Pacific Ocean")]).
  by repeat constructor.
Defined.

(** C2, as the code has it.  An entry with both fields whose id is a JSON
    scalar (null, a bool, a number or a string) and names no question of
    the bank is skipped: the turn raises nothing and leaves score and
    [correct_answers] as they were, the whole list is scored as the list
    without that entry, and [correct_answers] has no entry for that id. *)
Theorem submit_exam_skips_unknown st l1 a l2 i o c :
  getitem a "id" = Return i →
  getitem a "selected_option" = Return o →
  py_hash i = Return c →
  Forall (λ q, c ≠ KInt (qid q)) (g_questions st) →
  (∀ locals, loop_body (question_map (g_questions st)) locals a = Return locals)
  ∧ submit_exam st (l1 ++ a :: l2) = submit_exam st (l1 ++ l2)
  ∧ (∀ r, (submit_exam st (l1 ++ a :: l2)).1 = Return r →
          dict_lookup (correct_answers r) c = None).
Proof.
  intros Hi Ho Hc Hq%find_question_None.
  assert (∀ locals, loop_body (question_map (g_questions st)) locals a = Return locals)
    as Hskip by (intros; by eapply loop_body_skip).
  split_and!; [done| |].
  - rewrite !submit_exam_for, !for_answers_app.
    destruct (for_answers _ _ l1) as [locals|e]; [|done]. simpl.
    by rewrite Hskip.
  - intros r. rewrite submit_exam_for. simpl.
    destruct (for_answers _ _ _) as [[s d]|e] eqn:Hfor; [|done].
    intros [= <-]. simpl.
    rewrite (for_answers_dict _ _ _ _ _ _ c Hfor).
    destruct (existsb _ _); [by rewrite Hq|done].
Qed.

Lemma submit_exam_skips_unknown_witness :
  submit_exam startup
    ([submission (JInt 1) (JStr "Paris")]
       ++ submission (JInt 999) (JStr "Paris") :: [submission (JInt 2) (JStr "Mars")])
  = submit_exam startup
      ([submission (JInt 1) (JStr "Paris")] ++ [submission (JInt 2) (JStr "Mars")]).
Proof.
  apply (submit_exam_skips_unknown startup _ (submission (JInt 999) (JStr "Paris")) _
           (JInt 999) (JStr "Paris") (KInt 999)); try reflexivity.
  by repeat constructor.
Defined.

(** C2 as the spec states it fails: an id that is a JSON array names no
    question of the bank, and the entry is not skipped: [submit_exam]
    raises [TypeError] (the id is unhashable), while the list without that
    entry is scored. *)
Lemma submit_exam_array_id_raises :
  has_fields (submission (JArr [JInt 999]) (JStr "Paris"))
  ∧ Forall (λ q, JArr [JInt 999] ≠ JInt (qid q)) questions
  ∧ (submit_exam startup
       [submission (JInt 1) (JStr "Paris");
        submission (JArr [JInt 999]) (JStr "Paris")]).1
    = Raise TypeError
  ∧ (submit_exam startup [submission (JInt 1) (JStr "Paris")]).1
    = Return (mkScoring 1 5 [(JInt 1, "Paris")]).
Proof.
  split_and!; try by vm_compute.
  - by exists [("id", JArr [JInt 999]); ("selected_option", JStr "Paris")],
      (JArr [JInt 999]), (JStr "Paris").
  - by repeat constructor.
Qed.

(** C3. Duplicates are not merged.  Appending an entry for a bank question
    to a scored list adds 1 to the score exactly when its selected option is
    the str equal to the correct answer, character for character, and
    writes the correct answer under its id again, so the last write is the
    one read back; the score is the number of entries that earn a point,
    repeats included, and six correct answers to question 1 score 6 out of
    5, while "paris" earns nothing. *)
Theorem submit_exam_duplicates st l r a i o c q :
  (submit_exam st l).1 = Return r →
  getitem a "id" = Return i →
  getitem a "selected_option" = Return o →
  py_hash i = Return c →
  find_question (question_map (g_questions st)) c = Some q →
  (submit_exam st (l ++ [a])).1 =
    Return (mkScoring (score r + (if eq_str o (correct_answer q) then 1 else 0))
              (total r)
              (dict_setitem (correct_answers r) i c (correct_answer q)))
  ∧ dict_lookup (dict_setitem (correct_answers r) i c (correct_answer q)) c
    = Some (correct_answer q)
  ∧ (eq_str o (correct_answer q) = true ↔ o = JStr (correct_answer q))
  ∧ score r = length (filter (λ b, earns (question_map (g_questions st)) b = true) l)
  ∧ (q ∈ g_questions st ∧ c = KInt (qid q))
  ∧ (submit_exam startup (replicate 6 (submission (JInt 1) (JStr "Paris")))).1
    = Return (mkScoring 6 5 [(JInt 1, "Paris")])
  ∧ (submit_exam startup [submission (JInt 1) (JStr "paris")]).1
    = Return (mkScoring 0 5 [(JInt 1, "Paris")]).
Proof.
  rewrite !submit_exam_for. simpl. intros Hr Hi Ho Hc Hq.
  destruct (for_answers _ _ l) as [[s d]|e] eqn:Hfor; [|done].
  injection Hr as <-. simpl. split_and!.
  - rewrite for_answers_app, Hfor. simpl.
    by rewrite (loop_body_known _ _ _ _ _ _ _ _ Hi Ho Hc Hq).
  - rewrite (dict_lookup_setitem _ _ _ _ c Hc). by rewrite decide_True.
  - destruct o as [| | |t| |]; simpl; try (split; [done|by intros [=]]).
    rewrite String.eqb_eq. split; congruence.
  - by rewrite (for_answers_score _ _ _ _ _ _ Hfor).
  - destruct c as [|n|t]; simpl in Hq; try done.
    by apply question_map_lookup_Some in Hq as [? _].
  - destruct c as [|n|t]; simpl in Hq; try done.
    by apply question_map_lookup_Some in Hq as [_ <-].
  - by vm_compute.
  - by vm_compute.
Qed.

Lemma submit_exam_duplicates_witness :
  (submit_exam startup
     ([submission (JInt 1) (JStr "Paris")] ++ [submission (JInt 1) (JStr "Paris")])).1
  = Return (mkScoring 2 5 [(JInt 1, "Paris")]).
Proof.
  refine (proj1 (submit_exam_duplicates startup [submission (JInt 1) (JStr "Paris")]
                   (mkScoring 1 5 [(JInt 1, "Paris")])
                   (submission (JInt 1) (JStr "Paris"))
                   (JInt 1) (JStr "Paris") (KInt 1)
                   (mkQuestion 1 "What is the capital of France?"
                      ["Berlin"; "Madrid"; "Paris"; "Rome"] "Paris")
                   _ _ _ _ _)); by vm_compute.
Defined.

(** C4. On the shipped bank, answering question 1 with "Paris" and question
    2 with "Earth" returns score 1, total 5 and [correct_answers] binding 1
    to "Paris" and 2 to "Mars". *)
Theorem submit_exam_example :
  submit_exam startup
    [submission (JInt 1) (JStr "Paris"); submission (JInt 2) (JStr "Earth")]
  = (Return (mkScoring 1 5 [(JInt 1, "Paris"); (JInt 2, "Mars")]), startup).
Proof. by vm_compute. Qed.

(** ** Credentials *)

Lemma py_not_true v : py_not v = true ↔ empty_or_missing v.
Proof.
  unfold empty_or_missing. destruct v as [s|]; simpl.
  - rewrite String.eqb_eq. split; [intros ->; by right|by intros [|[=]]].
  - split; [by left|done].
Qed.

Lemma py_not_false s : s ≠ "" → py_not (Some s) = false.
Proof. intros Hs. simpl. by apply String.eqb_neq. Qed.

(** Pass the guard [if not username or not password] with both fields
    given. *)
Ltac fields_given Hu Hp :=
  simpl username; simpl password;
  rewrite (py_not_false _ Hu), (py_not_false _ Hp).

(** C5, as the code has it.  Registering a non-empty username that is not
    in [users] with a non-empty password answers 201 and binds the username
    to the password itself, unchanged; the other users and the bank stay as
    they were. *)
Theorem register_stores_password st u p :
  u ≠ "" → p ≠ "" → g_users st !! u = None →
  register st (mkCredentials (Some u) (Some p))
  = ((Msg "User registered successfully", 201%Z),
     mkState (<[u := p]> (g_users st)) (g_questions st))
  ∧ g_users (register st (mkCredentials (Some u) (Some p))).2 !! u = Some p
  ∧ (∀ v, v ≠ u →
       g_users (register st (mkCredentials (Some u) (Some p))).2 !! v
       = g_users st !! v).
Proof.
  intros Hu Hp Hnew.
  assert (register st (mkCredentials (Some u) (Some p))
          = ((Msg "User registered successfully", 201%Z),
             mkState (<[u := p]> (g_users st)) (g_questions st))) as ->.
  { unfold register. fields_given Hu Hp. simpl.
    rewrite Hnew. by rewrite bool_decide_eq_false_2 by (by intros [??]). }
  simpl. split_and!; [done|by rewrite lookup_insert_eq|].
  intros v Hv. by rewrite lookup_insert_ne.
Qed.

Lemma register_stores_password_witness :
  g_users (register startup (mkCredentials (Some "bob") (Some "hunter2"))).2 !! "bob"
  = Some "hunter2".
Proof.
  refine (proj1 (proj2 (register_stores_password startup "bob" "hunter2" _ _ _)));
    done.
Defined.

(** C5 as the spec states it fails: after registering alice with the secret
    "s3cret" the value stored for alice is "s3cret" itself. *)
Lemma register_keeps_raw_secret :
  ∃ st, register startup (mkCredentials (Some "alice") (Some "s3cret"))
         = ((Msg "User registered successfully", 201%Z), st)
    ∧ g_users st !! "alice" = Some "s3cret".
Proof. eexists. split; [reflexivity|]. by vm_compute. Qed.

(** C6. With non-empty fields, a login for a username that is not
    registered and a login for a registered username with another password
    than the stored one get the same response, status 401 and the same
    body, and neither changes the globals. *)
Theorem login_no_enumeration st u1 p1 u2 p2 stored :
  u1 ≠ "" → p1 ≠ "" → u2 ≠ "" → p2 ≠ "" →
  g_users st !! u1 = None →
  g_users st !! u2 = Some stored → stored ≠ p2 →
  login st (mkCredentials (Some u1) (Some p1))
  = ((Msg "Invalid username or password", 401%Z), st)
  ∧ login st (mkCredentials (Some u2) (Some p2))
    = login st (mkCredentials (Some u1) (Some p1)).
Proof.
  intros Hu1 Hp1 Hu2 Hp2 Hnone Hsome Hne. unfold login.
  fields_given Hu1 Hp1. fields_given Hu2 Hp2. simpl. rewrite Hnone, Hsome.
  rewrite (bool_decide_eq_false_2 (is_Some None)) by (by intros [??]).
  rewrite (bool_decide_eq_false_2 (Some stored = Some p2)) by congruence.
  by rewrite (bool_decide_eq_true_2 (is_Some (Some stored))) by eauto.
Qed.

Lemma login_no_enumeration_witness :
  let st := (register startup (mkCredentials (Some "alice") (Some "s3cret"))).2 in
  login st (mkCredentials (Some "alice") (Some "guess"))
  = login st (mkCredentials (Some "mallory") (Some "guess")).
Proof.
  refine (proj2 (login_no_enumeration _ "mallory" "guess" "alice" "guess" "s3cret"
                   _ _ _ _ _ _ _)); done.
Defined.



(** ** The question list *)

Lemma has_key_strings k (l : list string) : has_key k (JArr (map JStr l)) = false.
Proof. simpl. induction l as [|s l IH]; [done|]. simpl. by rewrite IH. Qed.

(** C8. [get_questions] returns one object per question of the bank, in
    the bank's order, made of the question's id, text and options; no
    object in the output, at any depth, has a member named
    [correct_answer], whatever the bank; the globals are left as they were,
    so a second call returns what the first returned. *)
Theorem get_questions_strips_answers st :
  get_questions st
  = (JArr ((λ q, JObj [("id", JInt (qid q));
                       ("question", JStr (question q));
                       ("options", JArr (JStr <$> options q))]) <$> g_questions st),
     st)
  ∧ has_key "correct_answer" (get_questions st).1 = false
  ∧ get_questions (get_questions st).2 = get_questions st.
Proof.
  split_and!; [done| |done].
  unfold get_questions. simpl. induction (g_questions st) as [|q qs IH]; [done|].
  simpl. rewrite IH.
  pose proof (has_key_strings "correct_answer" (options q)) as Hopts.
  simpl in Hopts. by rewrite Hopts.
Qed.

(** ** Malformed submissions *)

Lemma well_formed_shape a :
  well_formed a ↔
  ∃ members i o, a = JObj members ∧ obj_lookup "id" members = Some i
    ∧ obj_lookup "selected_option" members = Some o ∧ hashable i = true.
Proof.
  unfold well_formed. split.
  - destruct a as [| | | | |members]; try done. simpl.
    destruct (obj_lookup "id" members) as [i|] eqn:Hi; [|done].
    destruct (obj_lookup "selected_option" members) as [o|] eqn:Ho; [|done].
    destruct (hashable i) eqn:Hh; [|done]. intros _. by exists members, i, o.
  - intros (members & i & o & -> & Hi & Ho & Hh). simpl. by rewrite Hi, Ho, Hh.
Qed.

Lemma missing_field_error a : missing_field a → entry_error a = Some KeyError.
Proof.
  intros (members & -> & [Hi|Ho]); simpl.
  - by rewrite Hi.
  - rewrite Ho. by destruct (obj_lookup "id" members).
Qed.


Lemma submit_exam_raises st l1 a l2 e :
  Forall well_formed l1 → entry_error a = Some e →
  submit_exam st (l1 ++ a :: l2) = (Raise e, st).
Proof.
  intros Hl1 Ha. rewrite submit_exam_for.
  by rewrite (for_answers_raises _ _ l1 a l2 e Hl1 Ha).
Qed.

Lemma submit_exam_returns st l :
  Forall well_formed l → ∃ r, submit_exam st l = (Return r, st).
Proof.
  intros Hl. rewrite submit_exam_for.
  destruct (for_answers_returns (question_map (g_questions st)) (0, []) l Hl) as [locals ->].
  by eexists.
Qed.

(** C9, as the code has it.  A list with an entry that lacks [id] or
    [selected_option] makes [submit_exam] raise, and so does a list with an
    entry that is not an object or whose id is an array or an object: the
    first such entry decides the exception ([KeyError] for a missing field,
    [TypeError] otherwise) and no scoring result is returned.  Every list
    of objects that carry both fields and a scalar id is scored, whatever
    the values. *)
Theorem submit_exam_all_or_nothing st l :
  (Exists missing_field l → ∃ e, submit_exam st l = (Raise e, st))
  ∧ (∀ l1 a l2 e, l = l1 ++ a :: l2 → Forall well_formed l1 →
       entry_error a = Some e → submit_exam st l = (Raise e, st))
  ∧ (Forall well_formed l → ∃ r, submit_exam st l = (Return r, st))
  ∧ (∀ a, missing_field a → entry_error a = Some KeyError)
  ∧ (∀ a, well_formed a ↔
       ∃ members i o, a = JObj members ∧ obj_lookup "id" members = Some i
         ∧ obj_lookup "selected_option" members = Some o ∧ hashable i = true).
Proof.
  split_and!.
  - intros Hex. destruct (first_malformed l) as [Hwf|(l1 & a & l2 & e & -> & Hl1 & Ha)].
    + apply Exists_exists in Hex as (a & Ha & Hmiss%missing_field_error).
      rewrite Forall_forall in Hwf. specialize (Hwf a Ha). unfold well_formed in Hwf.
      congruence.
    + exists e. by apply submit_exam_raises.
  - intros l1 a l2 e -> Hl1 Ha. by apply submit_exam_raises.
  - apply submit_exam_returns.
  - apply missing_field_error.
  - apply well_formed_shape.
Qed.

Lemma submit_exam_all_or_nothing_witness :
  (∃ e, submit_exam startup
          [submission (JInt 1) (JStr "Paris"); JObj [("id", JInt 2)]]
        = (Raise e, startup))
  ∧ submit_exam startup
      ([submission (JInt 1) (JStr "Paris")] ++ JObj [("id", JInt 2)] :: [JNull])
    = (Raise KeyError, startup)
  ∧ (∃ r, submit_exam startup
            [submission (JStr "x") JNull; submission JNull (JArr [])]
          = (Return r, startup)).
Proof.
  split_and!.
  - apply (proj1 (submit_exam_all_or_nothing startup _)).
    apply Exists_cons_tl, Exists_cons_hd. exists [("id", JInt 2)]. split; [done|by right].
  - apply (proj1 (proj2 (submit_exam_all_or_nothing startup _))
             [submission (JInt 1) (JStr "Paris")] (JObj [("id", JInt 2)]) [JNull]);
      [done|by repeat constructor|done].
  - apply (proj1 (proj2 (proj2 (submit_exam_all_or_nothing startup _)))).
    by repeat constructor.
Defined.

(** C9 as the spec states it fails twice.  An entry without [id] makes
    [submit_exam] raise [KeyError], which Flask answers with status 500,
    not 400; and an entry that has both fields raises [TypeError] when its
    id is an array. *)
Lemma submit_exam_missing_field_500 :
  (submit_exam startup [JObj [("selected_option", JStr "Paris")]]).1 = Raise KeyError
  ∧ submit_status (submit_exam startup [JObj [("selected_option", JStr "Paris")]]).1
    = 500%Z
  ∧ submit_status (submit_exam startup [JObj [("selected_option", JStr "Paris")]]).1
    ≠ 400%Z
  ∧ has_fields (submission (JArr [JInt 1]) (JStr "Paris"))
  ∧ (submit_exam startup [submission (JArr [JInt 1]) (JStr "Paris")]).1
    = Raise TypeError.
Proof.
  split_and!; try by vm_compute.
  by exists [("id", JArr [JInt 1]); ("selected_option", JStr "Paris")],
    (JArr [JInt 1]), (JStr "Paris").
Qed.

(** ** More on register and login *)

(** The three answers of [register]. *)
Lemma register_cases st data :
  (register st data = ((Msg "Username and password are required", 400%Z), st)
   ∧ (empty_or_missing (username data) ∨ empty_or_missing (password data)))
  ∨ (∃ u p, username data = Some u ∧ password data = Some p ∧ u ≠ "" ∧ p ≠ ""
       ∧ is_Some (g_users st !! u)
       ∧ register st data = ((Msg "User already exists", 409%Z), st))
  ∨ (∃ u p, username data = Some u ∧ password data = Some p ∧ u ≠ "" ∧ p ≠ ""
       ∧ g_users st !! u = None
       ∧ register st data
         = ((Msg "User registered successfully", 201%Z),
            mkState (<[u := p]> (g_users st)) (g_questions st))).
Proof.
  unfold register.
  destruct (py_not (username data) || py_not (password data)) eqn:Hnot.
  - left. split; [done|]. apply orb_true_iff in Hnot. by rewrite <- !py_not_true.
  - apply orb_false_iff in Hnot as [Hu Hp].
    destruct (username data) as [u|]; [|done].
    destruct (password data) as [p|]; [|done].
    simpl in Hu, Hp. apply String.eqb_neq in Hu, Hp.
    case_bool_decide as Hin.
    + right; left. by exists u, p.
    + right; right. exists u, p. split_and!; try done.
      by apply eq_None_not_Some.
Qed.

(** The three answers of [login]. *)
Lemma login_cases st data :
  (login st data = ((Msg "Username and password are required", 400%Z), st)
   ∧ (empty_or_missing (username data) ∨ empty_or_missing (password data)))
  ∨ (∃ u p, username data = Some u ∧ password data = Some p ∧ u ≠ "" ∧ p ≠ ""
       ∧ g_users st !! u ≠ Some p
       ∧ login st data = ((Msg "Invalid username or password", 401%Z), st))
  ∨ (∃ u p, username data = Some u ∧ password data = Some p ∧ u ≠ "" ∧ p ≠ ""
       ∧ g_users st !! u = Some p
       ∧ login st data = ((AccessToken u, 200%Z), st)).
Proof.
  unfold login.
  destruct (py_not (username data) || py_not (password data)) eqn:Hnot.
  - left. split; [done|]. apply orb_true_iff in Hnot. by rewrite <- !py_not_true.
  - apply orb_false_iff in Hnot as [Hu Hp].
    destruct (username data) as [u|]; [|done].
    destruct (password data) as [p|]; [|done].
    simpl in Hu, Hp. apply String.eqb_neq in Hu, Hp.
    destruct (decide (g_users st !! u = Some p)) as [Hok|Hbad].
    + right; right. exists u, p. split_and!; try done.
      rewrite Hok. rewrite bool_decide_eq_true_2 by eauto.
      by rewrite bool_decide_eq_true_2.
    + right; left. exists u, p. split_and!; try done.
      rewrite (bool_decide_eq_false_2 (g_users st !! u = Some p)) by done.
      simpl. by rewrite orb_true_r.
Qed.

(** X1. After a successful registration the same username and password log
    in: the answer is 200 with a token for that username. *)
Theorem register_then_login st u p :
  u ≠ "" → p ≠ "" → g_users st !! u = None →
  login (register st (mkCredentials (Some u) (Some p))).2
        (mkCredentials (Some u) (Some p))
  = ((AccessToken u, 200%Z), (register st (mkCredentials (Some u) (Some p))).2).
Proof.
  intros Hu Hp Hnew.
  destruct (register_cases st (mkCredentials (Some u) (Some p)))
    as [[_ [[?|[= ?]]|[?|[= ?]]]]|[(u' & p' & [= <-] & [= <-] & _ & _ & [? Hin] & _)
       |(u' & p' & [= <-] & [= <-] & _ & _ & _ & ->)]]; try done; try congruence.
  simpl.
  destruct (login_cases (mkState (<[u:=p]> (g_users st)) (g_questions st))
              (mkCredentials (Some u) (Some p)))
    as [[_ [[?|[= ?]]|[?|[= ?]]]]|[(u' & p' & [= <-] & [= <-] & _ & _ & Hbad & _)
       |(u' & p' & [= <-] & [= <-] & _ & _ & _ & ->)]]; try done.
  simpl in Hbad. by rewrite lookup_insert_eq in Hbad.
Qed.

Lemma register_then_login_witness :
  login (register startup (mkCredentials (Some "carol") (Some "pw1"))).2
        (mkCredentials (Some "carol") (Some "pw1"))
  = ((AccessToken "carol", 200%Z),
     (register startup (mkCredentials (Some "carol") (Some "pw1"))).2).
Proof. apply (register_then_login startup "carol" "pw1"); done. Defined.

(** X2. The first registration of a username wins: a second registration
    with another password answers 409 and changes nothing, the stored
    password is still the first one, and the second password does not log
    in. *)
Theorem register_twice st u p p' :
  u ≠ "" → p ≠ "" → p' ≠ "" → g_users st !! u = None →
  let st1 := (register st (mkCredentials (Some u) (Some p))).2 in
  register st1 (mkCredentials (Some u) (Some p'))
  = ((Msg "User already exists", 409%Z), st1)
  ∧ g_users st1 !! u = Some p
  ∧ (p' ≠ p →
     login st1 (mkCredentials (Some u) (Some p'))
     = ((Msg "Invalid username or password", 401%Z), st1)).
Proof.
  intros Hu Hp Hp' Hnew st1.
  assert (g_users st1 !! u = Some p) as Hst1.
  { subst st1.
    destruct (register_cases st (mkCredentials (Some u) (Some p)))
      as [[_ [[?|[= ?]]|[?|[= ?]]]]|[(u' & q & [= <-] & [= <-] & _ & _ & [? Hin] & _)
         |(u' & q & [= <-] & [= <-] & _ & _ & _ & ->)]]; try done; try congruence.
    simpl. by rewrite lookup_insert_eq. }
  split_and!; [|done|].
  - destruct (register_cases st1 (mkCredentials (Some u) (Some p')))
      as [[_ [[?|[= ?]]|[?|[= ?]]]]|[(u' & q & [= <-] & [= <-] & _ & _ & _ & ->)
         |(u' & q & [= <-] & [= <-] & _ & _ & Hnone & _)]]; try done; congruence.
  - intros Hne.
    destruct (login_cases st1 (mkCredentials (Some u) (Some p')))
      as [[_ [[?|[= ?]]|[?|[= ?]]]]|[(u' & q & [= <-] & [= <-] & _ & _ & _ & ->)
         |(u' & q & [= <-] & [= <-] & _ & _ & Hok & _)]]; try done; congruence.
Qed.

Lemma register_twice_witness :
  let st1 := (register startup (mkCredentials (Some "dave") (Some "first"))).2 in
  register st1 (mkCredentials (Some "dave") (Some "second"))
  = ((Msg "User already exists", 409%Z), st1)
  ∧ g_users st1 !! "dave" = Some "first".
Proof.
  intros st1.
  destruct (register_twice startup "dave" "first" "second") as (H1 & H2 & _);
    [done..|]. by split.
Defined.

Lemma login_state st data : (login st data).2 = st.
Proof.
  by destruct (login_cases st data)
    as [[-> _]|[(u & p & _ & _ & _ & _ & _ & ->)
       |(u & p & _ & _ & _ & _ & _ & ->)]].
Qed.

(** X3. For a username and a password that are each a string or missing,
    [login] answers 200 exactly when both are non-empty and the password is
    the one stored for the username; the token is then issued for that
    username; [login] does not change the globals. *)
Theorem login_succeeds_iff st data :
  ((login st data).1.2 = 200%Z ↔
   ∃ u p, username data = Some u ∧ password data = Some p
     ∧ u ≠ "" ∧ p ≠ "" ∧ g_users st !! u = Some p)
  ∧ (∀ identity, (login st data).1.1 = AccessToken identity →
       username data = Some identity
       ∧ g_users st !! identity = password data)
  ∧ (login st data).2 = st.
Proof.
  destruct (login_cases st data)
    as [[-> Hempty]|[(u & p & Hu & Hp & Hune & Hpne & Hbad & ->)
       |(u & p & Hu & Hp & Hune & Hpne & Hok & ->)]]; simpl; split_and!; try done.
  - split; [done|]. intros (u & p & Hu & Hp & Hune & Hpne & _).
    destruct Hempty as [[?|?]|[?|?]]; congruence.
  - split; [done|]. intros (u' & p' & Hu' & Hp' & _ & _ & Hok). congruence.
  - split; [|done]. intros _. by exists u, p.
  - intros identity [= <-]. by rewrite Hok, Hp.
Qed.

Lemma login_succeeds_iff_witness :
  (login (register startup (mkCredentials (Some "erin") (Some "pw"))).2
     (mkCredentials (Some "erin") (Some "pw"))).1.2 = 200%Z.
Proof.
  apply (proj1 (login_succeeds_iff _ _)). exists "erin", "pw".
  split_and!; try done.
Defined.

(** X4. [register] changes the globals only when it answers 201, and then
    [users] has exactly one more entry and the bank is the same. *)
Theorem register_effect st data :
  ((register st data).1.2 ≠ 201%Z → (register st data).2 = st)
  ∧ ((register st data).1.2 = 201%Z →
       size (g_users (register st data).2) = S (size (g_users st))
       ∧ g_questions (register st data).2 = g_questions st).
Proof.
  destruct (register_cases st data)
    as [[-> _]|[(u & p & _ & _ & _ & _ & _ & ->)
       |(u & p & _ & _ & _ & _ & Hnew & ->)]]; simpl; split_and!; try done.
  intros _. split; [|done]. by apply map_size_insert_None.
Qed.

Lemma register_effect_witness :
  (register startup (mkCredentials (Some "fay") (Some ""))).2 = startup
  ∧ size (g_users (register startup (mkCredentials (Some "fay") (Some "pw"))).2) = 1.
Proof.
  split.
  - apply (proj1 (register_effect startup (mkCredentials (Some "fay") (Some "")))).
    by vm_compute.
  - refine (proj1 (proj2 (register_effect startup
              (mkCredentials (Some "fay") (Some "pw"))) _)).
    by vm_compute.
Defined.

(** ** Sequences of requests *)

Lemma handle_questions st r : g_questions (handle st r) = g_questions st.
Proof.
  destruct r as [data|data| |l]; simpl; try done.
  - destruct (register_cases st data)
      as [[-> _]|[(u & p & _ & _ & _ & _ & _ & ->)
         |(u & p & _ & _ & _ & _ & _ & ->)]]; done.
  - by rewrite login_state.
Qed.

Lemma handle_keeps_user st r u v :
  g_users st !! u = Some v → g_users (handle st r) !! u = Some v.
Proof.
  intros Hu. destruct r as [data|data| |l]; simpl; try done.
  - destruct (register_cases st data)
      as [[-> _]|[(u' & p & _ & _ & _ & _ & _ & ->)
         |(u' & p & _ & _ & _ & _ & Hnew & ->)]]; simpl; try done.
    rewrite lookup_insert_ne; [done|]. congruence.
  - by rewrite login_state.
Qed.

Lemma serve_snoc st requests r :
  serve st (requests ++ [r]) = handle (serve st requests) r.
Proof. unfold serve. by rewrite foldl_app. Qed.

Lemma serve_keeps_user st requests u v :
  g_users st !! u = Some v → g_users (serve st requests) !! u = Some v.
Proof.
  intros Hu. induction requests as [|r requests IH] using rev_ind; [done|].
  rewrite serve_snoc. by apply handle_keeps_user.
Qed.

Lemma serve_questions st requests :
  g_questions (serve st requests) = g_questions st.
Proof.
  induction requests as [|r requests IH] using rev_ind; [done|].
  by rewrite serve_snoc, handle_questions.
Qed.

(** X5. Whatever requests are served, the bank stays the same and a stored
    credential is never changed or removed: a username keeps the password
    it was registered with. *)
Theorem serve_keeps_credentials st requests :
  g_questions (serve st requests) = g_questions st
  ∧ (∀ u v, g_users st !! u = Some v → g_users (serve st requests) !! u = Some v).
Proof.
  split; [apply serve_questions|]. intros u v. apply serve_keeps_user.
Qed.

Lemma serve_keeps_credentials_witness :
  g_users (serve (register startup (mkCredentials (Some "gus") (Some "pw"))).2
             [PostRegister (mkCredentials (Some "gus") (Some "other"));
              PostLogin (mkCredentials (Some "gus") (Some "guess"));
              PostSubmit [JNull]; GetQuestions]) !! "gus"
  = Some "pw".
Proof. apply (proj2 (serve_keeps_credentials _ _)). by vm_compute. Defined.

(** X6. A login that succeeds keeps succeeding: after any further requests
    the same username and password get the same 200 answer. *)
Theorem login_stays_valid st data requests :
  (login st data).1.2 = 200%Z →
  login (serve st requests) data = ((login st data).1, serve st requests).
Proof.
  destruct (login_cases st data)
    as [[-> _]|[(u & p & _ & _ & _ & _ & _ & ->)
       |(u & p & Hu & Hp & Hune & Hpne & Hok & ->)]]; simpl; try done.
  intros _. pose proof (serve_keeps_user st requests u p Hok) as Hok'.
  destruct (login_cases (serve st requests) data)
    as [[_ [[?|?]|[?|?]]]|[(u' & p' & Hu' & Hp' & _ & _ & Hbad & _)
       |(u' & p' & Hu' & Hp' & _ & _ & _ & ->)]]; simplify_eq; try done;
    congruence.
Qed.

Lemma login_stays_valid_witness :
  let st := (register startup (mkCredentials (Some "hal") (Some "pw"))).2 in
  let requests := [PostRegister (mkCredentials (Some "hal") (Some "new"));
                   PostRegister (mkCredentials (Some "ivy") (Some "pw"))] in
  login (serve st requests) (mkCredentials (Some "hal") (Some "pw"))
  = ((AccessToken "hal", 200%Z), serve st requests).
Proof.
  intros st requests.
  apply (login_stays_valid st (mkCredentials (Some "hal") (Some "pw")) requests).
  by vm_compute.
Defined.

(** X7. [users] never holds an empty username or an empty password: if that
    is so before, it is so after any requests; it is so when the process
    starts. *)
Theorem serve_nonempty_credentials st requests :
  (∀ u p, g_users st !! u = Some p → u ≠ "" ∧ p ≠ "") →
  ∀ u p, g_users (serve st requests) !! u = Some p → u ≠ "" ∧ p ≠ "".
Proof.
  intros Hst. induction requests as [|r requests IH] using rev_ind; [done|].
  rewrite serve_snoc. destruct r as [data|data| |l]; simpl; try done.
  - destruct (register_cases (serve st requests) data)
      as [[-> _]|[(u' & p' & _ & _ & _ & _ & _ & ->)
         |(u' & p' & _ & _ & Hune & Hpne & _ & ->)]]; simpl; try done.
    intros u p. rewrite lookup_insert. case_decide as Hu.
    + intros [= <-]. by subst.
    + apply IH.
  - by rewrite login_state.
Qed.

Lemma serve_nonempty_credentials_witness :
  g_users (serve startup [PostRegister (mkCredentials (Some "") (Some "pw"));
                          PostRegister (mkCredentials (Some "jo") None);
                          PostRegister (mkCredentials (Some "jo") (Some "pw"))])
    !! "jo" = Some "pw"
  ∧ "jo" ≠ "" ∧ "pw" ≠ "".
Proof.
  split; [by vm_compute|].
  apply (serve_nonempty_credentials startup
           [PostRegister (mkCredentials (Some "") (Some "pw"));
            PostRegister (mkCredentials (Some "jo") None);
            PostRegister (mkCredentials (Some "jo") (Some "pw"))]);
    [|by vm_compute].
  intros u p. unfold startup, users. simpl. by rewrite lookup_empty.
Defined.

(** ** More on the question map *)

Lemma question_map_size qs : size (question_map qs) ≤ length qs.
Proof.
  induction qs as [|q qs IH] using rev_ind; [done|].
  rewrite question_map_snoc, length_app, map_size_insert. simpl.
  destruct (question_map qs !! qid q); simpl; lia.
Qed.

Lemma question_map_is_Some qs q : q ∈ qs → is_Some (question_map qs !! qid q).
Proof.
  intros Hq. apply not_eq_None_Some. intros Hnone.
  by apply (proj1 (question_map_lookup_None qs (qid q)) Hnone q).
Qed.

Lemma question_map_last qs1 q qs2 :
  Forall (λ q', qid q' ≠ qid q) qs2 →
  question_map (qs1 ++ q :: qs2) !! qid q = Some q.
Proof.
  induction qs2 as [|q' qs2 IH] using rev_ind; intros Hlater.
  - by rewrite question_map_snoc, lookup_insert_eq.
  - rewrite Forall_app, Forall_singleton in Hlater. destruct Hlater as [Hlater Hq'].
    rewrite app_comm_cons, app_assoc, question_map_snoc.
    rewrite lookup_insert_ne by done. by apply IH.
Qed.

Lemma question_map_lookup_NoDup qs q :
  NoDup (qid <$> qs) → q ∈ qs → question_map qs !! qid q = Some q.
Proof.
  intros Hdup [qs1 [qs2 ->]]%list_elem_of_split. apply question_map_last.
  rewrite fmap_app, fmap_cons in Hdup.
  apply NoDup_app in Hdup as (_ & _ & Hdup). apply NoDup_cons in Hdup as [Hq _].
  apply Forall_forall. intros q' Hq' Heq. apply Hq. rewrite <- Heq.
  by apply list_elem_of_fmap_2.
Qed.

(** Distinct things that each stand for a key of the question map are no
    more than the map has keys. *)
Lemma bounded_by_bank {A} (f : Z → A) (qm : gmap Z Question) (l : list A) :
  NoDup l → Forall (λ x, ∃ n, x = f n ∧ is_Some (qm !! n)) l →
  length l ≤ size qm.
Proof.
  intros Hdup Hl.
  assert (∃ ns, l = f <$> ns ∧ Forall (λ n, n ∈ dom qm) ns) as (ns & -> & Hns).
  { clear Hdup. induction Hl as [|x l (n & -> & Hn) _ (ns & -> & Hns)].
    - by exists [].
    - exists (n :: ns). split; [done|]. constructor; [|done]. by apply elem_of_dom. }
  apply NoDup_fmap_1 in Hdup. rewrite length_fmap.
  rewrite <- (size_list_to_set (C:=gset Z) ns Hdup), <- (size_dom qm).
  apply subseteq_size. intros n Hn%elem_of_list_to_set.
  rewrite Forall_forall in Hns. by apply Hns.
Qed.

(** ** More on the loop *)

Lemma for_answers_well_formed qm locals l locals' :
  for_answers qm locals l = Return locals' → Forall well_formed l.
Proof.
  intros Hfor. destruct (first_malformed l) as [?|(l1 & a & l2 & e & -> & Hl1 & Ha)];
    [done|]. by rewrite (for_answers_raises qm locals l1 a l2 e Hl1 Ha) in Hfor.
Qed.

Lemma submit_exam_result st l r :
  (submit_exam st l).1 = Return r →
  ∃ s d, for_answers (question_map (g_questions st)) (0, []) l = Return (s, d)
    ∧ r = mkScoring s (length (g_questions st)) d.
Proof.
  rewrite submit_exam_for. simpl.
  destruct (for_answers _ _ l) as [[s d]|e]; [|done]. intros [= <-]. by exists s, d.
Qed.

Lemma hits_true qm c a :
  hits qm c a = true ↔ answer_key a = Some c ∧ is_Some (find_question qm c).
Proof. unfold hits. by rewrite andb_true_iff, !bool_decide_eq_true. Qed.

Lemma earns_key qm a :
  earns qm a = true →
  ∃ n, answer_key a = Some (KInt n) ∧ is_Some (qm !! n).
Proof.
  unfold earns. destruct (answer_key a) as [c|]; [|done].
  destruct (getitem a "selected_option"); [|done].
  destruct c as [|n|s]; simpl; try done.
  destruct (qm !! n) as [q|] eqn:Hq; [|done]. intros _. exists n. eauto.
Qed.

Lemma dict_keys_setitem d k c v :
  py_hash k = Return c →
  (Return c ∈ dict_keys d ∧ dict_keys (dict_setitem d k c v) = dict_keys d)
  ∨ ((Return c ∉ dict_keys d)
     ∧ dict_keys (dict_setitem d k c v) = dict_keys d ++ [Return c]).
Proof.
  intros Hk. induction d as [|[k' v'] d IH]; simpl.
  - right. split; [apply not_elem_of_nil|by rewrite Hk].
  - destruct (key_is c k') eqn:Hc; simpl.
    + apply key_is_true in Hc. left. split; [|done]. rewrite Hc. by left.
    + assert (py_hash k' ≠ Return c) as Hne.
      { intros Heq%key_is_true. congruence. }
      destruct IH as [[Hin ->]|[Hout ->]].
      * left. split; [by right|done].
      * right. split; [|done]. by intros [?|?]%elem_of_cons.
Qed.

(** The dict built by the loop has distinct keys, each the id of a bank
    question. *)
Lemma for_answers_keys qm s d l s' d' :
  for_answers qm (s, d) l = Return (s', d') →
  NoDup (dict_keys d)
  ∧ Forall (λ x, ∃ n, x = Return (KInt n) ∧ is_Some (qm !! n)) (dict_keys d) →
  NoDup (dict_keys d')
  ∧ Forall (λ x, ∃ n, x = Return (KInt n) ∧ is_Some (qm !! n)) (dict_keys d').
Proof.
  revert s d. induction l as [|a l IH]; intros s d; simpl.
  - by intros [= _ ->].
  - pose proof (loop_body_cases qm s d a) as Hb.
    destruct (entry_error a) as [e|]; [by rewrite Hb|].
    destruct Hb as (i & o & c & Hi & Ho & Hc & ->). simpl.
    destruct (find_question qm c) as [q|] eqn:Hq; [|apply IH].
    intros Hfor [Hdup Hbank].
    assert (∃ s1, for_answers qm (s1, dict_setitem d i c (correct_answer q)) l
                  = Return (s', d')) as [s1 H1].
    { destruct (eq_str o (correct_answer q)); eauto. }
    apply (IH _ _ H1).
    destruct (dict_keys_setitem d i c (correct_answer q) Hc) as [[_ ->]|[Hout ->]];
      [done|].
    split.
    + apply NoDup_app. split_and!; [done| |apply NoDup_singleton].
      intros x Hx ->%list_elem_of_singleton. done.
    + apply Forall_app. split; [done|]. apply Forall_singleton.
      destruct c as [|n|t]; try done. exists n. split; [done|]. simpl in Hq. eauto.
Qed.

Lemma dict_setitem_length d k c v :
  length (dict_setitem d k c v) ≤ S (length d).
Proof.
  induction d as [|[k' v'] d IH]; simpl; [lia|].
  destruct (key_is c k'); simpl; lia.
Qed.

(** A turn of the loop adds at most one entry to the dict. *)
Lemma for_answers_length qm s d l s' d' :
  for_answers qm (s, d) l = Return (s', d') → length d' ≤ length d + length l.
Proof.
  revert s d. induction l as [|a l IH]; intros s d; simpl.
  - intros [= _ ->]. lia.
  - pose proof (loop_body_cases qm s d a) as Hb.
    destruct (entry_error a) as [e|]; [by rewrite Hb|].
    destruct Hb as (i & o & c & Hi & Ho & Hc & ->). simpl.
    destruct (find_question qm c) as [q|].
    + pose proof (dict_setitem_length d i c (correct_answer q)).
      destruct (eq_str o (correct_answer q)); intros ?%IH; lia.
    + intros ?%IH. lia.
Qed.

(** ** More on scoring *)

(** X8. The score is at most the number of submissions; when no two
    submissions have ids that are the same dict key (as Python compares
    keys: true is 1 and false is 0) it is at most the total. *)
Theorem submit_exam_score_bound st l r :
  (submit_exam st l).1 = Return r →
  score r ≤ length l
  ∧ (NoDup (answer_key <$> l) → score r ≤ total r).
Proof.
  intros (s & d & Hfor & ->)%submit_exam_result. simpl.
  rewrite (for_answers_score _ _ _ _ _ _ Hfor). simpl. split.
  - apply length_filter.
  - intros Hdup. etrans; [|apply question_map_size].
    rewrite <- (length_fmap answer_key).
    apply (bounded_by_bank (λ n, Some (KInt n))).
    + eapply sublist_NoDup; [done|]. apply fmap_sublist, sublist_filter.
    + apply Forall_fmap, Forall_forall. intros a [He _]%list_elem_of_filter.
      destruct (earns_key _ _ He) as (n & Hn & Hin). by exists n.
Qed.

Lemma submit_exam_score_bound_witness :
  score (mkScoring 1 5 [(JInt 1, "Paris"); (JInt 2, "Mars")]) ≤ 2
  ∧ score (mkScoring 1 5 [(JInt 1, "Paris"); (JInt 2, "Mars")]) ≤ 5.
Proof.
  destruct (submit_exam_score_bound startup
              [submission (JInt 1) (JStr "Paris"); submission (JInt 2) (JStr "Earth")]
              (mkScoring 1 5 [(JInt 1, "Paris"); (JInt 2, "Mars")]))
    as [Hlen Htot]; [by vm_compute|].
  split; [done|]. apply Htot. compute_done.
Defined.

(** X9. Scoring a list in two parts: when both parts are scored, the whole
    list is scored, its score is the sum of the two scores and its
    [correct_answers] is the union of the two dicts. *)
Theorem submit_exam_app st l1 l2 r1 r2 :
  (submit_exam st l1).1 = Return r1 →
  (submit_exam st l2).1 = Return r2 →
  ∃ r, (submit_exam st (l1 ++ l2)).1 = Return r
    ∧ score r = score r1 + score r2
    ∧ total r = total r1
    ∧ ∀ c, dict_lookup (correct_answers r) c =
           match dict_lookup (correct_answers r1) c with
           | Some v => Some v
           | None => dict_lookup (correct_answers r2) c
           end.
Proof.
  intros (s1 & d1 & Hfor1 & ->)%submit_exam_result
         (s2 & d2 & Hfor2 & ->)%submit_exam_result.
  pose proof (for_answers_well_formed _ _ _ _ Hfor1) as Hwf1.
  pose proof (for_answers_well_formed _ _ _ _ Hfor2) as Hwf2.
  destruct (for_answers_returns (question_map (g_questions st)) (0, []) (l1 ++ l2))
    as [[s d] Hfor]; [by apply Forall_app|].
  exists (mkScoring s (length (g_questions st)) d).
  rewrite submit_exam_for, Hfor. simpl. split_and!; try done.
  - rewrite (for_answers_score _ _ _ _ _ _ Hfor), (for_answers_score _ _ _ _ _ _ Hfor1),
      (for_answers_score _ _ _ _ _ _ Hfor2).
    rewrite filter_app, length_app. lia.
  - intros c. rewrite (for_answers_dict _ _ _ _ _ _ c Hfor),
      (for_answers_dict _ _ _ _ _ _ c Hfor1), (for_answers_dict _ _ _ _ _ _ c Hfor2).
    rewrite existsb_app.
    destruct (existsb _ l1) eqn:H1; simpl.
    + apply existsb_exists in H1 as (a & _ & [_ [q ->]]%hits_true). done.
    + by destruct (existsb _ l2).
Qed.

Lemma submit_exam_app_witness :
  ∃ r, (submit_exam startup
          ([submission (JInt 1) (JStr "Paris")] ++ [submission (JInt 5) (JStr "8")])).1
       = Return r
    ∧ score r = 1 + 1.
Proof.
  destruct (submit_exam_app startup
              [submission (JInt 1) (JStr "Paris")] [submission (JInt 5) (JStr "8")]
              (mkScoring 1 5 [(JInt 1, "Paris")]) (mkScoring 1 5 [(JInt 5, "8")]))
    as (r & Hr & Hs & _); [by vm_compute..|].
  exists r. by split.
Defined.

(** X10. [correct_answers] holds exactly the bank questions that some
    submission names, each with the bank's correct answer, whether the
    selected option was right or not. *)
Theorem correct_answers_exact st l r c v :
  (submit_exam st l).1 = Return r →
  dict_lookup (correct_answers r) c = Some v ↔
  ∃ a q, a ∈ l ∧ answer_key a = Some c
    ∧ find_question (question_map (g_questions st)) c = Some q
    ∧ v = correct_answer q.
Proof.
  intros (s & d & Hfor & ->)%submit_exam_result. simpl.
  rewrite (for_answers_dict _ _ _ _ _ _ c Hfor). simpl.
  destruct (existsb _ l) eqn:Hex.
  - apply existsb_exists in Hex as (a & Ha%list_elem_of_In & [Hk [q Hq]]%hits_true).
    rewrite Hq. simpl. split.
    + intros [= <-]. by exists a, q.
    + intros (a' & q' & _ & _ & [= <-] & ->). done.
  - split; [done|]. intros (a & q & Ha & Hk & Hq & _).
    assert (existsb (hits (question_map (g_questions st)) c) l = true) as Hex'.
    { apply existsb_exists. exists a. split; [by apply list_elem_of_In|].
      apply hits_true. eauto. }
    congruence.
Qed.

Lemma correct_answers_exact_witness :
  dict_lookup [(JInt 5, "8")] (KInt 5) = Some "8".
Proof.
  apply (proj2 (correct_answers_exact startup [submission (JInt 5) (JInt 8)]
                  (mkScoring 0 5 [(JInt 5, "8")]) (KInt 5) "8" ltac:(by vm_compute))).
  exists (submission (JInt 5) (JInt 8)),
    (mkQuestion 5 "What is the square root of 64?" ["6"; "7"; "8"; "9"] "8").
  split_and!; try done. by left.
Defined.

(** X11. The keys of [correct_answers] are distinct, and there are never
    more of them than the bank has questions or the request has
    submissions. *)
Theorem correct_answers_keys st l r :
  (submit_exam st l).1 = Return r →
  NoDup (dict_keys (correct_answers r))
  ∧ length (correct_answers r) ≤ total r
  ∧ length (correct_answers r) ≤ length l.
Proof.
  intros (s & d & Hfor & ->)%submit_exam_result. simpl.
  destruct (for_answers_keys _ _ _ _ _ _ Hfor) as [Hdup Hbank].
  { split; [apply NoDup_nil_2|apply Forall_nil_2]. }
  split_and!; [done| |].
  - etrans; [|apply question_map_size].
    replace (length d) with (length (dict_keys d))
      by (unfold dict_keys; apply length_map).
    by apply (bounded_by_bank (λ n, Return (KInt n))).
  - by apply (for_answers_length _ _ _ _ _ _ Hfor).
Qed.

Lemma correct_answers_keys_witness :
  length (correct_answers (mkScoring 3 5 [(JInt 1, "Paris")])) ≤ 5.
Proof.
  refine (proj1 (proj2 (correct_answers_keys startup
            (replicate 3 (submission (JInt 1) (JStr "Paris"))) _ _))).
  by vm_compute.
Defined.

(** X12. When the ids of the bank are distinct, the sheet that selects the
    correct answer of every question gets the full score, and
    [correct_answers] then has the answer of every question. *)
Theorem answer_sheet_full_score st :
  NoDup (qid <$> g_questions st) →
  ∃ r, submit_exam st (answer_sheet (g_questions st)) = (Return r, st)
    ∧ score r = total r
    ∧ total r = length (g_questions st)
    ∧ ∀ q, q ∈ g_questions st →
        dict_lookup (correct_answers r) (KInt (qid q)) = Some (correct_answer q).
Proof.
  intros Hdup. set (qm := question_map (g_questions st)).
  assert (∀ q, q ∈ g_questions st → qm !! qid q = Some q) as Hfind
    by (intros q; by apply question_map_lookup_NoDup).
  assert (Forall well_formed (answer_sheet (g_questions st))) as Hwf.
  { unfold answer_sheet. apply Forall_fmap, Forall_forall. by intros q _. }
  destruct (for_answers_returns qm (0, []) _ Hwf) as [[s d] Hfor].
  exists (mkScoring s (length (g_questions st)) d).
  rewrite submit_exam_for. fold qm. rewrite Hfor. simpl. split_and!; try done.
  - rewrite (for_answers_score _ _ _ _ _ _ Hfor). simpl.
    assert (∀ qs, (∀ q, q ∈ qs → qm !! qid q = Some q) →
                  length (filter (λ a, earns qm a = true) (answer_sheet qs))
                  = length qs) as Hall; [|by apply Hall].
    clear. intros qs. induction qs as [|q qs IH]; intros Hfind; [done|].
    unfold answer_sheet. rewrite map_cons, filter_cons. rewrite decide_True.
    + simpl. f_equal. apply IH. intros q' Hq'. apply Hfind. by right.
    + unfold earns. simpl. rewrite Hfind by by left. apply String.eqb_refl.
  - intros q Hq. rewrite (for_answers_dict _ _ _ _ _ _ (KInt (qid q)) Hfor).
    assert (existsb (hits qm (KInt (qid q))) (answer_sheet (g_questions st)) = true)
      as ->.
    { apply existsb_exists. exists (submission (JInt (qid q)) (JStr (correct_answer q))).
      split.
      - apply list_elem_of_In. unfold answer_sheet.
        by apply (list_elem_of_fmap_2 (λ q, submission (JInt (qid q))
                                          (JStr (correct_answer q)))).
      - apply hits_true. split; [done|]. simpl. rewrite Hfind by done. eauto. }
    simpl. by rewrite Hfind.
Qed.

Lemma answer_sheet_full_score_witness :
  ∃ r, submit_exam startup (answer_sheet questions) = (Return r, startup)
    ∧ score r = total r.
Proof.
  destruct (answer_sheet_full_score startup) as (r & Hr & Hs & _).
  - compute_done.
  - exists r. by split.
Defined.

(** X13. The keys of the bank are ints: an entry whose id is a string (such
    as "1") or null names no question and is skipped, whatever the bank. *)
Theorem submit_exam_skips_string_id st l1 a l2 i o :
  getitem a "id" = Return i →
  getitem a "selected_option" = Return o →
  (i = JNull ∨ ∃ s, i = JStr s) →
  submit_exam st (l1 ++ a :: l2) = submit_exam st (l1 ++ l2).
Proof.
  intros Hi Ho Hid.
  assert (∃ c, py_hash i = Return c
               ∧ find_question (question_map (g_questions st)) c = None)
    as (c & Hc & Hq).
  { destruct Hid as [->|[s ->]]; by eexists. }
  rewrite !submit_exam_for, !for_answers_app.
  destruct (for_answers _ _ l1) as [locals|e]; [|done]. simpl.
  by rewrite (loop_body_skip _ locals a i o c Hi Ho Hc Hq).
Qed.

Lemma submit_exam_skips_string_id_witness :
  submit_exam startup ([] ++ submission (JStr "1") (JStr "Paris") :: [])
  = submit_exam startup ([] ++ []).
Proof.
  apply (submit_exam_skips_string_id startup [] _ [] (JStr "1") (JStr "Paris"));
    [done|done|]. right. by exists "1".
Defined.

(** ** Entries that are treated alike *)

Lemma alike_earns qm a b : alike a b → earns qm a = earns qm b.
Proof. intros (_ & Hk & Ho). unfold earns. by rewrite Hk, Ho. Qed.

Lemma alike_hits qm c a b : alike a b → hits qm c a = hits qm c b.
Proof. intros (_ & Hk & _). unfold hits. by rewrite Hk. Qed.

Lemma alike_well_formed l l' :
  Forall2 alike l l' → Forall well_formed l → Forall well_formed l'.
Proof.
  induction 1 as [|a b l l' (He & _) _ IH]; [done|].
  intros [Ha Hl]%Forall_cons. constructor; [|by apply IH].
  unfold well_formed in *. congruence.
Qed.

Lemma alike_score qm l l' :
  Forall2 alike l l' →
  length (filter (λ a, earns qm a = true) l)
  = length (filter (λ a, earns qm a = true) l').
Proof.
  induction 1 as [|a b l l' Hab _ IH]; [done|].
  rewrite !filter_cons, (alike_earns qm a b Hab).
  case_decide; simpl; by rewrite IH.
Qed.

Lemma alike_existsb qm c l l' :
  Forall2 alike l l' → existsb (hits qm c) l = existsb (hits qm c) l'.
Proof.
  induction 1 as [|a b l l' Hab _ IH]; [done|].
  simpl. by rewrite (alike_hits qm c a b Hab), IH.
Qed.

(** X14. The outcome depends on an entry only through the key class of its
    id and its selected option: two lists whose entries are alike in these
    get the same outcome.  So a member with another name is ignored, and
    the id true is the id 1, false the id 0. *)
Theorem submit_exam_alike st l l' :
  Forall2 alike l l' →
  same_outcome (submit_exam st l).1 (submit_exam st l').1
  ∧ (∀ b o, alike (submission (JBool b) o) (submission (JInt (Z.b2z b)) o))
  ∧ (∀ k v members, k ≠ "id" → k ≠ "selected_option" →
       alike (JObj ((k, v) :: members)) (JObj members)).
Proof.
  intros Hl. split_and!.
  - destruct (first_malformed l) as [Hwf|(l1 & a & l2 & e & -> & Hl1 & Ha)].
    + pose proof (alike_well_formed l l' Hl Hwf) as Hwf'.
      rewrite !submit_exam_for. simpl.
      destruct (for_answers_returns (question_map (g_questions st)) (0, []) l Hwf)
        as [[s d] Hfor].
      destruct (for_answers_returns (question_map (g_questions st)) (0, []) l' Hwf')
        as [[s' d'] Hfor'].
      rewrite Hfor, Hfor'. simpl. split_and!; [|done|].
      * rewrite (for_answers_score _ _ _ _ _ _ Hfor),
          (for_answers_score _ _ _ _ _ _ Hfor').
        by rewrite (alike_score _ l l' Hl).
      * intros c. rewrite (for_answers_dict _ _ _ _ _ _ c Hfor),
          (for_answers_dict _ _ _ _ _ _ c Hfor').
        by rewrite (alike_existsb _ c l l' Hl).
    + apply Forall2_app_inv_l in Hl as (l1' & k & Hl1' & Hk & ->).
      apply Forall2_cons_inv_l in Hk as (b & l2' & (Hab & _) & _ & ->).
      rewrite (submit_exam_raises st l1 a l2 e Hl1 Ha).
      rewrite (submit_exam_raises st l1' b l2' e); [done| |congruence].
      by apply (alike_well_formed l1 l1').
  - by intros [] o.
  - intros k v members Hid Hopt.
    assert (∀ name, k ≠ name →
              obj_lookup name ((k, v) :: members) = obj_lookup name members) as Hsame.
    { intros name Hne. simpl. destruct (obj_lookup name members); [done|].
      by rewrite (proj2 (String.eqb_neq k name)). }
    unfold alike, entry_error, answer_key, getitem.
    by rewrite !Hsame.
Qed.

Lemma submit_exam_alike_witness :
  same_outcome
    (submit_exam startup
       [JObj [("note", JStr "x"); ("id", JBool true); ("selected_option", JStr "Paris")]]).1
    (submit_exam startup [submission (JInt 1) (JStr "Paris")]).1.
Proof.
  apply (submit_exam_alike startup). constructor; [|constructor]. by vm_compute.
Defined.

(** ** Banks with repeated ids, and the ids that are listed *)

(** X15. When several questions of the bank share an id, answers are
    checked against the last of them, although [get_questions] lists them
    all and the total counts them all: the question map has at most as
    many keys as the bank has questions. *)
Theorem question_map_later_wins qs1 q qs2 :
  Forall (λ q', qid q' ≠ qid q) qs2 →
  find_question (question_map (qs1 ++ q :: qs2)) (KInt (qid q)) = Some q
  ∧ size (question_map (qs1 ++ q :: qs2)) ≤ length (qs1 ++ q :: qs2)
  ∧ ∀ st o, g_questions st = qs1 ++ q :: qs2 →
      (submit_exam st [submission (JInt (qid q)) o]).1
      = Return (mkScoring (if eq_str o (correct_answer q) then 1 else 0)
                  (length (qs1 ++ q :: qs2))
                  [(JInt (qid q), correct_answer q)]).
Proof.
  intros Hlater. pose proof (question_map_last qs1 q qs2 Hlater) as Hq.
  split_and!; [done|apply question_map_size|].
  intros st o Hst. rewrite submit_exam_for, Hst. simpl.
  rewrite (loop_body_known _ 0 [] _ (JInt (qid q)) o (KInt (qid q)) q);
    try done.
Qed.

Lemma question_map_later_wins_witness :
  (submit_exam
     (mkState ∅ [mkQuestion 1 "2 + 2?" ["3"; "4"] "3";
                 mkQuestion 1 "2 + 2?" ["3"; "4"] "4"])
     [submission (JInt 1) (JStr "4")]).1
  = Return (mkScoring 1 2 [(JInt 1, "4")]).
Proof.
  refine (proj2 (proj2 (question_map_later_wins
            [mkQuestion 1 "2 + 2?" ["3"; "4"] "3"]
            (mkQuestion 1 "2 + 2?" ["3"; "4"] "4") [] _)) _ (JStr "4") _); done.
Defined.

(** X16. Every id that [get_questions] lists can be sent back: with any
    selected option the submission is scored without error and
    [correct_answers] gives an answer for that id. *)
Theorem listed_ids_are_answerable st items item o :
  (get_questions st).1 = JArr items → item ∈ items →
  ∃ n r, getitem item "id" = Return (JInt n)
    ∧ (submit_exam st [submission (JInt n) o]).1 = Return r
    ∧ is_Some (dict_lookup (correct_answers r) (KInt n)).
Proof.
  intros Hget Hitem. unfold get_questions, question_data in Hget.
  simpl in Hget. injection Hget as <-.
  apply list_elem_of_In, in_map_iff in Hitem as (q & <- & Hq%list_elem_of_In).
  destruct (question_map_is_Some _ _ Hq) as [q' Hq'].
  exists (qid q). eexists. split_and!; [done| |].
  - rewrite submit_exam_for. simpl.
    by rewrite (loop_body_known _ 0 [] _ (JInt (qid q)) o (KInt (qid q)) q').
  - simpl. unfold key_is. simpl. rewrite bool_decide_eq_true_2 by done. eauto.
Qed.

Lemma listed_ids_are_answerable_witness :
  ∃ n r, getitem (JObj [("id", JInt 4);
                        ("question", JStr "Who wrote 'To Kill a Mockingbird'?");
                        ("options", JArr [JStr "Harper Lee"; JStr "Mark Twain";
                                          JStr "Ernest Hemingway";
                                          JStr "F. Scott Fitzgerald"])]) "id"
         = Return (JInt n)
    ∧ (submit_exam startup [submission (JInt n) JNull]).1 = Return r
    ∧ is_Some (dict_lookup (correct_answers r) (KInt n)).
Proof.
  apply (listed_ids_are_answerable startup (question_data questions)); [done|].
  do 3 right. by left.
Defined.

(** X17. The exam handlers keep no history: after any requests handled in
    between, [get_questions] returns the same list and [submit_exam] gives
    the same result for the same submissions. *)
Theorem exam_ignores_history st requests l :
  (get_questions (serve st requests)).1 = (get_questions st).1
  ∧ (submit_exam (serve st requests) l).1 = (submit_exam st l).1
  ∧ (submit_exam (serve st (requests ++ [PostSubmit l])) l).1 = (submit_exam st l).1.
Proof.
  assert (∀ rs, (submit_exam (serve st rs) l).1 = (submit_exam st l).1) as Hsub.
  { intros rs. rewrite !submit_exam_for. simpl. by rewrite serve_questions. }
  split_and!; [|apply Hsub..].
  unfold get_questions. simpl. by rewrite serve_questions.
Qed.

(** ** Order of the submissions *)










(** The dict lists its keys in the order of the submissions. *)
Remark submit_exam_insertion_order :
  (submit_exam startup
     [submission (JInt 2) (JStr "Earth"); submission (JInt 1) (JStr "Paris")]).1
  = Return (mkScoring 1 5 [(JInt 2, "Mars"); (JInt 1, "Paris")]).
Proof. by vm_compute. Qed.
